(** * Session-based authentication dashboard: store, session client, route guard

    A shallow embedding of the client-side authentication state machine:

    - [AuthSlice]      the Redux slice of [authSlice.ts]: the [AuthState]
                       record, one definition per case reducer, and the
                       slice reducer that dispatches on the action;
    - [SessionClient]  the thunks [checkAuthStatus] and [logoutUser]: the
                       module-level [authCheckPromise] and the event loop
                       that resumes the callers awaiting it;
    - [AuthGuard]      the component returned by [withAuth]: its render
                       function, its effect, and a mounted instance fed
                       with store emissions.
    - [SimpleGuard], [AuthProvider], [AuthDebugger], [Dashboard],
      [LoginForm]      the components around the store: the guard without
                       the [isChecking] state, the provider that checks the
                       session on load, the debugger's buttons, the
                       dashboard's logout and the login form's effect.

    JavaScript's [null] and [undefined] are both read as [None]: the code
    only ever tests such values for truthiness. *)

From Stdlib Require Import String List Bool Arith Lia.
Import ListNotations.
Local Open Scope string_scope.
Local Open Scope list_scope.

(** ** JavaScript truthiness helpers *)

(** [m || d] on an optional string: [undefined], [null] and the empty
    string are falsy. *)
Definition js_or_string (m : option string) (d : string) : string :=
  match m with
  | Some EmptyString => d
  | Some s => s
  | None => d
  end.

(** [!!x] on an optional object. *)
Definition js_present {A : Type} (x : option A) : bool :=
  match x with
  | Some _ => true
  | None => false
  end.

(** [b || c] where [b] is an optional boolean and [c] a boolean. *)
Definition js_or_bool (b : option bool) (c : bool) : bool :=
  match b with
  | Some true => true
  | _ => c
  end.

(** ** The auth slice *)

Module AuthSlice.

Record User : Type := mkUser {
  id : string;
  email : string;
  name : string;
  skillLevel : option string;
  preferredLanguages : option (list string)
}.

Inductive Status : Type := idle | loading | succeeded | failed.

Definition Status_eqb (a b : Status) : bool :=
  match a, b with
  | idle, idle | loading, loading | succeeded, succeeded | failed, failed => true
  | _, _ => false
  end.

Record AuthState : Type := mkAuthState {
  user : option User;
  isAuthenticated : bool;
  status : Status;
  error : option string
}.

Definition initialState : AuthState :=
  {| user := None; isAuthenticated := false; status := idle; error := None |}.

(** Field assignments [state.f = v]. *)
Definition set_user (v : option User) (state : AuthState) : AuthState :=
  {| user := v; isAuthenticated := isAuthenticated state;
     status := status state; error := error state |}.

Definition set_isAuthenticated (v : bool) (state : AuthState) : AuthState :=
  {| user := user state; isAuthenticated := v;
     status := status state; error := error state |}.

Definition set_status (v : Status) (state : AuthState) : AuthState :=
  {| user := user state; isAuthenticated := isAuthenticated state;
     status := v; error := error state |}.

Definition set_error (v : option string) (state : AuthState) : AuthState :=
  {| user := user state; isAuthenticated := isAuthenticated state;
     status := status state; error := v |}.

(** *** Payloads *)

(** Body of [GET /auth/me]: [{ authenticated, user? }].  A field that the
    JSON object does not carry reads as [None]. *)
Record MeData : Type := mkMeData {
  authenticated : option bool;
  me_user : option User
}.

(** The axios response object.  Its own properties are [data], [status],
    [statusText], [headers], [config] and [request]; it has no
    [authenticated] and no [user] property. *)
Record AxiosResponse (D : Type) : Type := mkAxiosResponse {
  data : D;
  http_status : nat;
  statusText : string
}.
Arguments mkAxiosResponse {D} _ _ _.
Arguments data {D} _.
Arguments http_status {D} _.
Arguments statusText {D} _.

(** What [checkAuthStatus] can return (its payload is typed [any]): the
    body of the response, or the response object itself. *)
Inductive CheckPayload : Type :=
| Body (d : MeData)
| Response (r : AxiosResponse MeData).

(** [action.payload.authenticated] *)
Definition payload_authenticated (p : CheckPayload) : option bool :=
  match p with
  | Body d => authenticated d
  | Response _ => None
  end.

(** [action.payload.user] *)
Definition payload_user (p : CheckPayload) : option User :=
  match p with
  | Body d => me_user d
  | Response _ => None
  end.

(** Value handed to [rejectWithValue]: the error body of the backend or
    [{ message }]. *)
Record RejectValue : Type := mkRejectValue {
  message : option string
}.

(** Body of [POST /auth/login] and [POST /auth/register]: [{ user }]. *)
Record UserData : Type := mkUserData {
  data_user : option User
}.

(** *** Actions *)

Inductive Action : Type :=
| clearError_action
| setAuthenticated_action (payload : bool)
| manualLogout_action
| checkAuthStatus_pending_action
| checkAuthStatus_fulfilled_action (payload : CheckPayload)
| checkAuthStatus_rejected_action (payload : option RejectValue)
| loginUser_pending_action
| loginUser_fulfilled_action (payload : UserData)
| loginUser_rejected_action (error_message : option string)
| registerUser_pending_action
| registerUser_fulfilled_action (payload : UserData)
| registerUser_rejected_action (error_message : option string)
| logoutUser_pending_action
| logoutUser_fulfilled_action
| logoutUser_rejected_action.

(** *** Case reducers, in the order of the source *)

Definition clearError (state : AuthState) : AuthState :=
  set_error None state.

Definition setAuthenticated (state : AuthState) (payload : bool) : AuthState :=
  let state := set_isAuthenticated payload state in
  if negb payload then set_user None state else state.

Definition manualLogout (state : AuthState) : AuthState :=
  let state := set_isAuthenticated false state in
  let state := set_user None state in
  set_status idle state.

Definition checkAuthStatus_pending (state : AuthState) : AuthState :=
  set_status loading state.

Definition checkAuthStatus_fulfilled (state : AuthState) (payload : CheckPayload)
  : AuthState :=
  let state := set_status succeeded state in
  let state :=
    set_isAuthenticated
      (js_or_bool (payload_authenticated payload) (js_present (payload_user payload)))
      state in
  set_user (payload_user payload) state.

Definition checkAuthStatus_rejected (state : AuthState) (payload : option RejectValue)
  : AuthState :=
  let state := set_status failed state in
  let state :=
    set_error
      (match payload with
       | Some p => message p
       | None => Some "Authentication check failed"
       end)
      state in
  let state := set_isAuthenticated false state in
  set_user None state.

Definition loginUser_pending (state : AuthState) : AuthState :=
  let state := set_status loading state in
  set_error None state.

Definition loginUser_fulfilled (state : AuthState) (payload : UserData) : AuthState :=
  let state := set_status succeeded state in
  let state := set_isAuthenticated true state in
  let state := set_user (data_user payload) state in
  set_error None state.

Definition loginUser_rejected (state : AuthState) (error_message : option string)
  : AuthState :=
  let state := set_status failed state in
  set_error (Some (js_or_string error_message "Login failed")) state.

Definition registerUser_pending (state : AuthState) : AuthState :=
  set_status loading state.

Definition registerUser_fulfilled (state : AuthState) (payload : UserData)
  : AuthState :=
  let state := set_status succeeded state in
  let state := set_isAuthenticated true state in
  set_user (data_user payload) state.

Definition registerUser_rejected (state : AuthState) (error_message : option string)
  : AuthState :=
  let state := set_status failed state in
  set_error (Some (js_or_string error_message "Registration failed")) state.

Definition logoutUser_pending (state : AuthState) : AuthState :=
  let state := set_isAuthenticated false state in
  let state := set_user None state in
  set_status loading state.

Definition logoutUser_fulfilled (state : AuthState) : AuthState :=
  let state := set_isAuthenticated false state in
  let state := set_user None state in
  let state := set_status idle state in
  set_error None state.

Definition logoutUser_rejected (state : AuthState) : AuthState :=
  let state := set_isAuthenticated false state in
  let state := set_user None state in
  set_status idle state.

(** [authSlice.reducer] *)
Definition reducer (state : AuthState) (action : Action) : AuthState :=
  match action with
  | clearError_action => clearError state
  | setAuthenticated_action payload => setAuthenticated state payload
  | manualLogout_action => manualLogout state
  | checkAuthStatus_pending_action => checkAuthStatus_pending state
  | checkAuthStatus_fulfilled_action payload => checkAuthStatus_fulfilled state payload
  | checkAuthStatus_rejected_action payload => checkAuthStatus_rejected state payload
  | loginUser_pending_action => loginUser_pending state
  | loginUser_fulfilled_action payload => loginUser_fulfilled state payload
  | loginUser_rejected_action m => loginUser_rejected state m
  | registerUser_pending_action => registerUser_pending state
  | registerUser_fulfilled_action payload => registerUser_fulfilled state payload
  | registerUser_rejected_action m => registerUser_rejected state m
  | logoutUser_pending_action => logoutUser_pending state
  | logoutUser_fulfilled_action => logoutUser_fulfilled state
  | logoutUser_rejected_action => logoutUser_rejected state
  end.

(** The store after a sequence of dispatched actions. *)
Definition dispatch_all (state : AuthState) (actions : list Action) : AuthState :=
  fold_left reducer actions state.

End AuthSlice.

(** ** The session client: thunks *)

Module SessionClient.
Import AuthSlice.

(** What a thunk's payload creator settles with: a returned payload
    ([fulfilled]) or a [rejectWithValue] ([rejected]). *)
Inductive ThunkResult (P V : Type) : Type :=
| fulfilled (payload : P)
| rejected (value : V).
Arguments fulfilled {P V} _.
Arguments rejected {P V} _.

(** The error axios throws: [error.response?.data] (absent or falsy reads
    as [None]) and [error.message]. *)
Record AxiosError : Type := mkAxiosError {
  response_data : option RejectValue;
  error_message : string
}.

(** [error.response?.data || { message: error.message }] *)
Definition reject_value (e : AxiosError) : RejectValue :=
  match response_data e with
  | Some d => d
  | None => {| message := Some (error_message e) |}
  end.

(** How the promise of [axios.get(`${API_BASE_URL}/auth/me`)] settles. *)
Inductive Settled : Type :=
| resolved (r : AxiosResponse MeData)
| thrown (e : AxiosError).

(** *** checkAuthStatus *)

(** The two [await]s of the payload creator at which a caller can be
    suspended: [return await authCheckPromise] for a caller that found a
    promise in progress, and [const response = await authCheckPromise] for
    the caller that created it. *)
Inductive AwaitSite : Type := await_existing | await_created.

Record Awaiter : Type := mkAwaiter {
  caller : nat;
  site : AwaitSite;
  awaited : nat
}.

(** The module-level state: the variable [authCheckPromise] (the pending
    request it refers to, or null), the number of [axios.get] calls issued
    so far, and the suspended callers in the order they started to wait. *)
Record Client : Type := mkClient {
  authCheckPromise : option nat;
  requests : nat;
  awaiting : list Awaiter
}.

Definition initialClient : Client :=
  {| authCheckPromise := None; requests := 0; awaiting := [] |}.

(** The payload creator up to its first [await]. *)
Definition checkAuthStatus_call (c : Client) (who : nat) : Client :=
  match authCheckPromise c with
  | Some p =>
      {| authCheckPromise := Some p;
         requests := requests c;
         awaiting := awaiting c ++ [mkAwaiter who await_existing p] |}
  | None =>
      let p := requests c in
      {| authCheckPromise := Some p;
         requests := S (requests c);
         awaiting := awaiting c ++ [mkAwaiter who await_created p] |}
  end.

(** The payload creator from its [await] on: the new value of
    [authCheckPromise] and what the caller gets. *)
Definition checkAuthStatus_resume (s : AwaitSite) (o : Settled) (var : option nat)
  : option nat * ThunkResult CheckPayload RejectValue :=
  match o with
  | resolved response =>
      match s with
      | await_existing => (var, fulfilled (Response response))
      | await_created => (None, fulfilled (Body (data response)))
      end
  | thrown e => (None, rejected (reject_value e))
  end.

(** Request [p] settles: the callers awaiting it resume in the order in
    which they started to wait. *)
Fixpoint resume_all (p : nat) (o : Settled) (var : option nat) (ws : list Awaiter)
  : option nat * list Awaiter * list (nat * ThunkResult CheckPayload RejectValue) :=
  match ws with
  | [] => (var, [], [])
  | w :: ws' =>
      if Nat.eqb (awaited w) p then
        let '(var1, res) := checkAuthStatus_resume (site w) o var in
        let '(var2, rest, out) := resume_all p o var1 ws' in
        (var2, rest, (caller w, res) :: out)
      else
        let '(var2, rest, out) := resume_all p o var ws' in
        (var2, w :: rest, out)
  end.

Definition checkAuthStatus_settle (c : Client) (p : nat) (o : Settled)
  : Client * list (nat * ThunkResult CheckPayload RejectValue) :=
  let '(var, rest, out) := resume_all p o (authCheckPromise c) (awaiting c) in
  ({| authCheckPromise := var; requests := requests c; awaiting := rest |}, out).

(** The lifecycle action a settled thunk dispatches. *)
Definition checkAuthStatus_completion (r : ThunkResult CheckPayload RejectValue)
  : Action :=
  match r with
  | fulfilled payload => checkAuthStatus_fulfilled_action payload
  | rejected value => checkAuthStatus_rejected_action (Some value)
  end.

(** The client together with the store and the result each caller of
    [dispatch(checkAuthStatus())] has observed. *)
Record World : Type := mkWorld {
  client : Client;
  store : AuthState;
  observed : list (nat * ThunkResult CheckPayload RejectValue)
}.

Definition initialWorld : World :=
  {| client := initialClient; store := initialState; observed := [] |}.

Inductive Event : Type :=
| dispatch_checkAuthStatus (who : nat)
| settle (p : nat) (o : Settled).

Definition step (w : World) (e : Event) : World :=
  match e with
  | dispatch_checkAuthStatus who =>
      {| client := checkAuthStatus_call (client w) who;
         store := reducer (store w) checkAuthStatus_pending_action;
         observed := observed w |}
  | settle p o =>
      let '(c, out) := checkAuthStatus_settle (client w) p o in
      {| client := c;
         store := dispatch_all (store w)
                    (map (fun x => checkAuthStatus_completion (snd x)) out);
         observed := observed w ++ out |}
  end.

Definition run (w : World) (es : list Event) : World := fold_left step es w.

(** *** logoutUser *)

Definition LocalStorage : Type := list (string * string).

Definition removeItem (key : string) (ls : LocalStorage) : LocalStorage :=
  filter (fun kv => negb (String.eqb (fst kv) key)) ls.

(** How [axios.get(`${API_BASE_URL}/auth/logoutExtension`)] settles. *)
Inductive LogoutSettled : Type :=
| logout_resolved
| logout_thrown (e : AxiosError).

(** The payload creator of [logoutUser]: both the [try] and the [catch]
    branch return null. *)
Definition logoutUser_body (o : LogoutSettled) (ls : LocalStorage)
  : LocalStorage * ThunkResult unit RejectValue :=
  match o with
  | logout_resolved => (removeItem "auth_last_checked" ls, fulfilled tt)
  | logout_thrown _ => (ls, fulfilled tt)
  end.

Definition logoutUser_completion (r : ThunkResult unit RejectValue) : Action :=
  match r with
  | fulfilled _ => logoutUser_fulfilled_action
  | rejected _ => logoutUser_rejected_action
  end.

End SessionClient.

(** ** The route guard *)

Module AuthGuard.
Import AuthSlice.

Inductive View : Type :=
| CheckingView      (* spinner, Checking authentication... *)
| ProtectedView     (* the wrapped component *)
| LoginPromptView.  (* Please log in to access this page *)

Inductive Navigation : Type :=
| replace (href : string)
| push (href : string).

(** The body of [AuthGuard] after its hooks. *)
Definition render (isAuthenticated : bool) (status : Status) (isChecking : bool)
  : View :=
  if Status_eqb status loading || isChecking then CheckingView
  else if isAuthenticated then ProtectedView
  else LoginPromptView.

(** What the effect does when it runs: the argument of [setIsChecking], if
    it is called, and the router calls. *)
Record EffectOutput : Type := mkEffectOutput {
  setIsChecking : option bool;
  navigations : list Navigation
}.

Definition effect (isAuthenticated : bool) (status : Status) : EffectOutput :=
  if negb (Status_eqb status loading) then
    {| setIsChecking := Some false;
       navigations :=
         if Status_eqb status succeeded && negb isAuthenticated
         then [replace "/auth/login"]
         else [] |}
  else {| setIsChecking := None; navigations := [] |}.

(** The [Go to login] button. *)
Definition onClick : Navigation := push "/auth/login".

(** A mounted guard: the [isChecking] state and the dependencies
    [isAuthenticated, status] of the previous render ([None] before the
    first one).  The router object returned by [useRouter] is the same in
    every render, so it never makes the dependencies differ. *)
Record Instance : Type := mkInstance {
  isChecking : bool;
  deps : option (bool * Status)
}.

Definition mount : Instance := {| isChecking := true; deps := None |}.

(** Two dependency arrays hold the same values. *)
Definition same_deps (x y : bool * Status) : bool :=
  Bool.eqb (fst x) (fst y) && Status_eqb (snd x) (snd y).

Definition deps_changed (prev : option (bool * Status)) (cur : bool * Status) : bool :=
  match prev with
  | None => true
  | Some p => negb (same_deps p cur)
  end.

(** What one store emission makes the guard do: the views it renders, in
    order, and the router calls of its effect. *)
Record Commit : Type := mkCommit {
  views : list View;
  navs : list Navigation
}.

(** One emission [(isAuthenticated, status)]: the guard renders; the effect
    runs if a dependency changed since the previous render; a state update
    that changes [isChecking] renders once more, with unchanged
    dependencies. *)
Definition update (g : Instance) (e : bool * Status) : Instance * Commit :=
  let first := render (fst e) (snd e) (isChecking g) in
  if deps_changed (deps g) e then
    let out := effect (fst e) (snd e) in
    match setIsChecking out with
    | Some b =>
        if Bool.eqb b (isChecking g)
        then ({| isChecking := b; deps := Some e |},
              {| views := [first]; navs := navigations out |})
        else ({| isChecking := b; deps := Some e |},
              {| views := [first; render (fst e) (snd e) b];
                 navs := navigations out |})
    | None =>
        ({| isChecking := isChecking g; deps := Some e |},
         {| views := [first]; navs := navigations out |})
    end
  else (g, {| views := [first]; navs := [] |}).

Fixpoint observe (g : Instance) (es : list (bool * Status)) : Instance * list Commit :=
  match es with
  | [] => (g, [])
  | e :: es' =>
      let '(g1, c) := update g e in
      let '(g2, cs) := observe g1 es' in
      (g2, c :: cs)
  end.

(** Every router call the guard makes over a sequence of emissions. *)
Definition redirects (g : Instance) (es : list (bool * Status)) : list Navigation :=
  concat (map navs (snd (observe g es))).

(** The view on screen once a commit is done. *)
Definition settled (c : Commit) : View := last (views c) CheckingView.

(** The number of times a sequence of emissions enters the state [target]:
    an emission equal to [target] that follows a different one, or that is
    the first the guard sees. *)
Fixpoint entries (target : bool * Status) (prev : option (bool * Status))
  (es : list (bool * Status)) : nat :=
  match es with
  | [] => 0
  | e :: es' =>
      (if same_deps e target && deps_changed prev e then 1 else 0)
      + entries target (Some e) es'
  end.

(** An instance that last rendered a status other than [loading] has left
    its initial check. *)
Definition checked (g : Instance) : Prop :=
  forall a s, deps g = Some (a, s) -> s <> loading -> isChecking g = false.

End AuthGuard.

(** ** Concrete data used by the examples *)

Module Examples.
Import AuthSlice SessionClient.

(** The user of the login scenario. *)
Definition userA : User :=
  {| id := "1"; email := "a@b.com"; name := "A";
     skillLevel := None; preferredLanguages := None |}.

(** [GET /auth/me] answering for a live session. *)
Definition me_response : AxiosResponse MeData :=
  {| data := {| authenticated := Some true; me_user := Some userA |};
     http_status := 200; statusText := "OK" |}.

(** A store that recorded a failed login. *)
Definition after_failed_login : AuthState :=
  dispatch_all initialState
    [loginUser_pending_action; loginUser_rejected_action (Some "Rejected")].

(** A signed-in store on which a registration attempt then failed. *)
Definition failed_while_signed_in : AuthState :=
  dispatch_all initialState
    [loginUser_pending_action;
     loginUser_fulfilled_action {| data_user := Some userA |};
     registerUser_pending_action;
     registerUser_rejected_action None].

End Examples.

(** ** Which actions keep [isAuthenticated] and [user] in step *)

Module Consistency.
Import AuthSlice.

(** An action that cannot raise [isAuthenticated] without providing a
    user: [setAuthenticated] only with a false payload, a status-check body
    that carries a user whenever it says [authenticated], a login or
    registration body that carries a user. *)
Definition carries_user (a : Action) : bool :=
  match a with
  | setAuthenticated_action payload => negb payload
  | checkAuthStatus_fulfilled_action p =>
      implb (js_or_bool (payload_authenticated p) false) (js_present (payload_user p))
  | loginUser_fulfilled_action p => js_present (data_user p)
  | registerUser_fulfilled_action p => js_present (data_user p)
  | _ => true
  end.

(** The two directions of the agreement between the flag and the user. *)
Definition authenticated_has_user (s : AuthState) : Prop :=
  isAuthenticated s = true -> user s <> None.

Definition user_is_authenticated (s : AuthState) : Prop :=
  user s <> None -> isAuthenticated s = true.

End Consistency.

(** ** Effects with a dependency array *)

Module Hook.
Import AuthGuard.

Section Run.
Context {D : Type}.
Variable same : D -> D -> bool.
Variable effect : D -> list Navigation.

Definition changed (prev : option D) (cur : D) : bool :=
  match prev with
  | None => true
  | Some p => negb (same p cur)
  end.

(** The router calls of a component whose only effect has dependencies of
    type [D]: the effect runs after the first render and after each render
    whose dependencies differ from those of the render before. *)
Fixpoint run (prev : option D) (renders : list D) : list Navigation :=
  match renders with
  | [] => []
  | d :: rest => (if changed prev d then effect d else []) ++ run (Some d) rest
  end.

(** The number of times a sequence of renders enters [target]. *)
Fixpoint entries (target : D) (prev : option D) (renders : list D) : nat :=
  match renders with
  | [] => 0
  | d :: rest =>
      (if same d target && changed prev d then 1 else 0)
      + entries target (Some d) rest
  end.

End Run.

End Hook.

(** ** The guard without the [isChecking] state *)

Module SimpleGuard.
Import AuthSlice.

Inductive View : Type :=
| CheckingView      (* spinner, Checking authentication... *)
| ProtectedView     (* the wrapped component *)
| LoginPromptView   (* Please log in to access this page *)
| LoadingView.      (* spinner, Loading... *)

Definition effect (isAuthenticated : bool) (status : Status)
  : list AuthGuard.Navigation :=
  if Status_eqb status succeeded && negb isAuthenticated
  then [AuthGuard.replace "/auth/login"]
  else [].

Definition render (isAuthenticated : bool) (status : Status) : View :=
  if Status_eqb status loading then CheckingView
  else if isAuthenticated then ProtectedView
  else if Status_eqb status succeeded && negb isAuthenticated then LoginPromptView
  else LoadingView.

End SimpleGuard.

(** ** The provider that checks the session on load *)

Module AuthProvider.

(** A mounted provider: the [initialized] state, the value of
    [initialized] in the dependencies of the previous render ([dispatch] is
    the same function in every render), and the number of dispatched
    checks whose promise has not settled. *)
Record Instance : Type := mkInstance {
  initialized : bool;
  deps : option bool;
  outstanding : nat
}.

Definition unmounted : Instance :=
  {| initialized := false; deps := None; outstanding := 0 |}.

(** The effect: how many times it dispatches [checkAuthStatus()]. *)
Definition effect (initialized : bool) : nat :=
  if negb initialized then 1 else 0.

(** A render, followed by the effect when [initialized] changed. *)
Definition render (p : Instance) : Instance * nat :=
  if Hook.changed Bool.eqb (deps p) (initialized p) then
    let n := effect (initialized p) in
    ({| initialized := initialized p;
        deps := Some (initialized p);
        outstanding := outstanding p + n |}, n)
  else (p, 0).

Inductive Event : Type :=
| render_again
| check_settled (was_rejected : bool).

(** [check_settled]: the promise of a dispatched check settles and its
    [finally] callback calls [setInitialized(true)], which renders again
    when it changes the state. *)
Definition step (p : Instance) (e : Event) : Instance * nat :=
  match e with
  | render_again => render p
  | check_settled _ =>
      match outstanding p with
      | 0 => (p, 0)
      | S k =>
          let p1 := {| initialized := true; deps := deps p; outstanding := k |} in
          if initialized p then (p1, 0) else render p1
      end
  end.

(** The provider after a sequence of events and the number of checks it
    has dispatched on the way. *)
Fixpoint run (p : Instance) (es : list Event) : Instance * nat :=
  match es with
  | [] => (p, 0)
  | e :: es' =>
      let '(p1, n) := step p e in
      let '(p2, m) := run p1 es' in
      (p2, n + m)
  end.

(** Mounting is the first render. *)
Definition lifetime (es : list Event) : Instance * nat :=
  let '(p1, n) := render unmounted in
  let '(p2, m) := run p1 es in
  (p2, n + m).

Definition is_settled (e : Event) : bool :=
  match e with
  | check_settled _ => true
  | render_again => false
  end.

End AuthProvider.

(** ** The debugger panel *)

Module AuthDebugger.
Import AuthSlice SessionClient.

(** The [Toggle Auth] button: [dispatch(setAuthenticated(!isAuthenticated))]. *)
Definition toggleAuth (state : AuthState) : AuthState :=
  reducer state (setAuthenticated_action (negb (isAuthenticated state))).

Record LogoutTest : Type := mkLogoutTest {
  test_store : AuthState;
  test_storage : LocalStorage;
  logoutMessage : string;
  fell_back : bool
}.

(** The [Test Logout] button: [await dispatch(logoutUser()).unwrap()],
    which throws when the thunk was rejected; the [catch] branch then
    dispatches [manualLogout]. *)
Definition testLogout (o : LogoutSettled) (state : AuthState) (ls : LocalStorage)
  : LogoutTest :=
  let state := reducer state logoutUser_pending_action in
  let '(ls, result) := logoutUser_body o ls in
  let state := reducer state (logoutUser_completion result) in
  match result with
  | fulfilled _ =>
      {| test_store := state; test_storage := ls;
         logoutMessage := "Logout API call succeeded"; fell_back := false |}
  | rejected _ =>
      {| test_store := reducer state manualLogout_action; test_storage := ls;
         logoutMessage := "Logout failed: [object Object]"; fell_back := true |}
  end.

End AuthDebugger.

(** ** The dashboard's logout button *)

Module Dashboard.
Import AuthSlice SessionClient.

Record LoggedOut : Type := mkLoggedOut {
  out_store : AuthState;
  out_storage : LocalStorage;
  out_navigations : list AuthGuard.Navigation;
  isLoggingOut : bool
}.

(** [handleLogout]: the local marker is removed and the router is sent to
    the login page before the thunk is dispatched.  The promise returned
    by dispatching a thunk is fulfilled with its completion action, so the
    handler passed to [catch] does not run; the outer [catch] block runs
    only if one of these calls throws synchronously, which none of them
    does here. *)
Definition handleLogout (o : LogoutSettled) (state : AuthState) (ls : LocalStorage)
  : LoggedOut :=
  let ls := removeItem "auth_last_checked" ls in
  let navigations := [AuthGuard.push "/auth/login"] in
  let state := reducer state logoutUser_pending_action in
  let '(ls, result) := logoutUser_body o ls in
  let state := reducer state (logoutUser_completion result) in
  {| out_store := state; out_storage := ls;
     out_navigations := navigations; isLoggingOut := true |}.

End Dashboard.

(** ** The login form *)

Module LoginForm.
Import AuthSlice.

(** The dependencies [isAuthenticated, status, loginAttempted] of the
    effect (the router is the same object in every render). *)
Definition Deps : Type := (bool * Status * bool)%type.

Definition same_deps (x y : Deps) : bool :=
  match x, y with
  | (a, s, l), (b, t, m) => Bool.eqb a b && Status_eqb s t && Bool.eqb l m
  end.

(** The effect that leaves for the dashboard after a successful login. *)
Definition effect (d : Deps) : list AuthGuard.Navigation :=
  match d with
  | (isAuthenticated, status, loginAttempted) =>
      if loginAttempted && isAuthenticated && Status_eqb status succeeded
      then [AuthGuard.push "/dashboard"]
      else []
  end.

(** The submit button is disabled while the status is [loading]. *)
Definition submit_disabled (status : Status) : bool := Status_eqb status loading.

Definition navigations (renders : list Deps) : list AuthGuard.Navigation :=
  Hook.run same_deps effect None renders.

End LoginForm.

(** ** The store as the guard sees it *)

Module Emissions.
Import AuthSlice.

(** What the guard selects from the store. *)
Definition emission (s : AuthState) : bool * Status :=
  (isAuthenticated s, status s).

(** The states the store goes through while a list of actions is
    dispatched. *)
Fixpoint trace (s : AuthState) (actions : list Action) : list AuthState :=
  match actions with
  | [] => []
  | a :: rest => reducer s a :: trace (reducer s a) rest
  end.

End Emissions.

Import AuthSlice SessionClient AuthGuard Examples Consistency.

(** * Properties of the store *)

Section Store.
Variable state : AuthState.

(** C2: whatever the prior state, once [login] fulfils with a payload
    [{ user }] the store is authenticated, holds the payload's user, has
    status [succeeded] and no error. *)
Theorem login_fulfilled_signs_in (payload : UserData) :
  let state' := reducer state (loginUser_fulfilled_action payload) in
  isAuthenticated state' = true
  /\ user state' = data_user payload
  /\ status state' = succeeded
  /\ error state' = None.
Proof. cbn. repeat split. Qed.

(** C4: when the status check fulfils with [{ authenticated, user? }] the
    store has status [succeeded], [isAuthenticated] is [authenticated] or
    the presence of [user], and [user] is the payload's user or none; when
    it is rejected the store has status [failed], the failure message as
    error ([payload.message], the message of the thrown error when the
    backend sent no body, a fixed text when there is no payload), is not
    authenticated and holds no user. *)
Theorem checkStatus_outcome_recorded :
  (forall (a : bool) (u : option User),
      let state' :=
        reducer state
          (checkAuthStatus_fulfilled_action
             (Body {| authenticated := Some a; me_user := u |})) in
      status state' = succeeded
      /\ isAuthenticated state' = (a || js_present u)
      /\ user state' = u)
  /\ (forall payload : option RejectValue,
         let state' := reducer state (checkAuthStatus_rejected_action payload) in
         status state' = failed
         /\ error state'
            = match payload with
              | Some v => message v
              | None => Some "Authentication check failed"
              end
         /\ isAuthenticated state' = false
         /\ user state' = None)
  /\ (forall msg : string,
         let thrown_error := {| response_data := None; error_message := msg |} in
         error (reducer state
                  (checkAuthStatus_completion (rejected (reject_value thrown_error))))
         = Some msg).
Proof.
  split; [|split].
  - intros a u; cbn. destruct a; cbn; repeat split.
  - intros payload; cbn. repeat split.
  - intros msg; reflexivity.
Qed.

(** C3: whatever the prior state, the pending phase of [logout] already
    clears [isAuthenticated] and [user]; the payload creator fulfils
    whether the network call resolves or throws, so the caller sees
    a success; and the store stays cleared after the completion, also
    from any state reached in between and also on a rejected completion. *)
Theorem logout_clears_at_once (o : LogoutSettled) (ls : LocalStorage) :
  let pending := reducer state logoutUser_pending_action in
  let result := snd (logoutUser_body o ls) in
  isAuthenticated pending = false
  /\ user pending = None
  /\ result = fulfilled tt
  /\ (let done := reducer pending (logoutUser_completion result) in
      isAuthenticated done = false /\ user done = None)
  /\ (forall (between : AuthState) (r : ThunkResult unit RejectValue),
         let done := reducer between (logoutUser_completion r) in
         isAuthenticated done = false /\ user done = None).
Proof.
  cbn. repeat split.
  - destruct o; reflexivity.
  - destruct o; reflexivity.
  - destruct o; reflexivity.
  - destruct r; reflexivity.
  - destruct r; reflexivity.
Qed.

(** C10: whatever the prior state, [manualLogout] clears [isAuthenticated]
    and [user], sets the status to [idle] and keeps the error field as it
    was, whereas a fulfilled [logout] resets the error. *)
Theorem manualLogout_keeps_error :
  let forced := reducer state manualLogout_action in
  isAuthenticated forced = false
  /\ user forced = None
  /\ status forced = idle
  /\ error forced = error state
  /\ error (reducer state logoutUser_fulfilled_action) = None.
Proof. cbn. repeat split. Qed.

End Store.

(** ** Errors and new attempts *)

(** Starting a login clears the error, whatever the prior state. *)
Lemma login_pending_clears_error (state : AuthState) :
  error (reducer state loginUser_pending_action) = None.
Proof. reflexivity. Qed.

(** The pending phases of the status check and of the registration leave
    the error field as they found it. *)
Lemma other_pending_keep_error (state : AuthState) :
  error (reducer state checkAuthStatus_pending_action) = error state
  /\ error (reducer state registerUser_pending_action) = error state.
Proof. split; reflexivity. Qed.

(** C8, on the store that recorded a failed login: a new login attempt
    clears the error, a new status check and a new registration attempt
    keep showing it, and a registration that then succeeds still does. *)
Theorem stale_error_survives_new_attempt :
  error after_failed_login = Some "Rejected"
  /\ error (reducer after_failed_login loginUser_pending_action) = None
  /\ error (reducer after_failed_login checkAuthStatus_pending_action)
     = Some "Rejected"
  /\ error (reducer after_failed_login registerUser_pending_action)
     = Some "Rejected"
  /\ error (dispatch_all after_failed_login
              [registerUser_pending_action;
               registerUser_fulfilled_action {| data_user := Some userA |}])
     = Some "Rejected".
Proof. repeat split. Qed.

(** ** Consistency of [isAuthenticated] and [user] *)

Lemma dispatch_all_app (s : AuthState) (xs ys : list Action) :
  dispatch_all s (xs ++ ys) = dispatch_all (dispatch_all s xs) ys.
Proof. unfold dispatch_all. apply fold_left_app. Qed.

Lemma carries_user_step (s : AuthState) (a : Action) :
  carries_user a = true ->
  authenticated_has_user s ->
  authenticated_has_user (reducer s a).
Proof.
  unfold authenticated_has_user.
  destruct a as [ | b | | | p | r | | p | m | | p | m | | | ]; cbn; intros Hc Hs;
    try discriminate; try assumption.
  - destruct b; cbn in *; [discriminate | intros; discriminate].
  - destruct (payload_authenticated p) as [[|]|], (payload_user p);
      cbn in *; intros; congruence.
  - destruct (data_user p); cbn in *; congruence.
  - destruct (data_user p); cbn in *; congruence.
Qed.

Lemma carries_user_run (actions : list Action) :
  forall s : AuthState,
    forallb carries_user actions = true ->
    authenticated_has_user s ->
    authenticated_has_user (dispatch_all s actions).
Proof.
  induction actions as [| a rest IH]; intros s Hall Hs; [exact Hs|].
  cbn in Hall. apply andb_true_iff in Hall as [Ha Hrest].
  change (dispatch_all s (a :: rest)) with (dispatch_all (reducer s a) rest).
  apply IH; [exact Hrest|]. now apply carries_user_step.
Qed.

(** The converse direction needs no condition on the actions: a step never
    leaves a user in the store without marking it authenticated. *)
Lemma user_is_authenticated_step (s : AuthState) (a : Action) :
  user_is_authenticated s -> user_is_authenticated (reducer s a).
Proof.
  unfold user_is_authenticated.
  destruct a as [ | b | | | p | r | | p | m | | p | m | | | ]; cbn; intros Hs;
    try assumption; try congruence.
  - destruct b; cbn in *; [reflexivity | congruence].
  - destruct (payload_authenticated p) as [[|]|], (payload_user p);
      cbn; congruence.
Qed.

(** X1: In every state reached from the initial state, through any actions at
    all, a store that holds a user is authenticated. *)
Lemma user_is_authenticated_reachable (actions : list Action) :
  user_is_authenticated (dispatch_all initialState actions).
Proof.
  induction actions as [| a rest IH] using rev_ind.
  - cbn. unfold user_is_authenticated. cbn. congruence.
  - rewrite dispatch_all_app. cbn. now apply user_is_authenticated_step.
Qed.

(** C9 does not hold of the code: the debugging action [setAuthenticated]
    with payload [true], dispatched on the initial state, gives a store
    that is authenticated and holds no user; so does a status check whose
    body says [authenticated] and carries no user. *)
Lemma authenticated_without_user :
  ~ (forall actions : list Action,
        isAuthenticated (dispatch_all initialState actions) = true ->
        user (dispatch_all initialState actions) <> None)
  /\ (let s := dispatch_all initialState [setAuthenticated_action true] in
      isAuthenticated s = true /\ user s = None)
  /\ (let s :=
        dispatch_all initialState
          [checkAuthStatus_pending_action;
           checkAuthStatus_fulfilled_action
             (Body {| authenticated := Some true; me_user := None |})] in
      isAuthenticated s = true /\ user s = None).
Proof.
  split; [|split; split; reflexivity].
  intros H. apply (H [setAuthenticated_action true]); reflexivity.
Qed.

(** C9, amended: in every state reached from the initial state through
    actions that carry a user whenever they mark the session authenticated
    (no [setAuthenticated(true)]; status-check bodies with a user when
    [authenticated]; login and registration bodies with a user),
    [isAuthenticated] implies that a user is present. *)
Theorem authenticated_has_user_reachable (actions : list Action) :
  forallb carries_user actions = true ->
  isAuthenticated (dispatch_all initialState actions) = true ->
  user (dispatch_all initialState actions) <> None.
Proof.
  intros Hall. apply (carries_user_run actions initialState Hall).
  unfold authenticated_has_user; cbn; discriminate.
Qed.

(** An instance: a status check on a live session, a logout, then a login. *)
Lemma authenticated_has_user_reachable_witness :
  let actions :=
    [checkAuthStatus_pending_action;
     checkAuthStatus_fulfilled_action (Body (data me_response));
     logoutUser_pending_action;
     logoutUser_fulfilled_action;
     loginUser_pending_action;
     loginUser_fulfilled_action {| data_user := Some userA |}] in
  forallb carries_user actions = true
  /\ isAuthenticated (dispatch_all initialState actions) = true
  /\ user (dispatch_all initialState actions) <> None.
Proof.
  cbv zeta. split; [reflexivity | split; [reflexivity |]].
  apply authenticated_has_user_reachable; reflexivity.
Defined.

(** * Properties of the route guard *)

Lemma Status_eqb_eq (a b : Status) : Status_eqb a b = true <-> a = b.
Proof. destruct a, b; cbn; split; congruence. Qed.

Lemma same_deps_eq (x y : bool * Status) : same_deps x y = true <-> x = y.
Proof.
  destruct x as [a s], y as [b t]; unfold same_deps; cbn.
  rewrite andb_true_iff, Bool.eqb_true_iff, Status_eqb_eq.
  split; [intros [-> ->]; reflexivity | intros [= -> ->]; auto].
Qed.

Lemma same_deps_refl (x : bool * Status) : same_deps x x = true.
Proof. now apply same_deps_eq. Qed.

Lemma deps_unchanged (prev : option (bool * Status)) (e : bool * Status) :
  deps_changed prev e = false <-> prev = Some e.
Proof.
  destruct prev as [p|]; cbn.
  - rewrite negb_false_iff, same_deps_eq. split; congruence.
  - split; discriminate.
Qed.

(** After an emission the guard remembers it as its dependencies. *)
Lemma update_deps (g : Instance) (e : bool * Status) :
  deps (fst (update g e)) = Some e.
Proof.
  unfold update. destruct (deps_changed (deps g) e) eqn:Hc.
  - destruct (setIsChecking (effect (fst e) (snd e))) as [b|]; [|reflexivity].
    destruct (Bool.eqb b (isChecking g)); reflexivity.
  - now apply deps_unchanged.
Qed.

(** The router calls of one emission: one [replace] to the login route
    when the dependencies changed to [(false, succeeded)], none otherwise. *)
Lemma update_navs (g : Instance) (e : bool * Status) :
  navs (snd (update g e))
  = if same_deps e (false, succeeded) && deps_changed (deps g) e
    then [replace "/auth/login"] else [].
Proof.
  unfold update. destruct e as [a s]. cbn [fst snd].
  destruct (deps_changed (deps g) (a, s)).
  - rewrite andb_true_r.
    destruct a, s; cbn; try reflexivity; destruct (isChecking g); reflexivity.
  - rewrite andb_false_r. reflexivity.
Qed.

Lemma observe_app (g : Instance) (xs ys : list (bool * Status)) :
  observe g (xs ++ ys)
  = (fst (observe (fst (observe g xs)) ys),
     snd (observe g xs) ++ snd (observe (fst (observe g xs)) ys)).
Proof.
  revert g; induction xs as [| x xs IH]; intros g; cbn.
  - now destruct (observe g ys).
  - destruct (update g x) as [g1 c]. rewrite IH.
    destruct (observe g1 xs) as [g2 cs]; cbn. reflexivity.
Qed.

Lemma redirects_cons (g : Instance) (e : bool * Status) (es : list (bool * Status)) :
  redirects g (e :: es) = navs (snd (update g e)) ++ redirects (fst (update g e)) es.
Proof.
  unfold redirects; cbn. destruct (update g e) as [g1 c]; cbn.
  destruct (observe g1 es) as [g2 cs]; reflexivity.
Qed.

Lemma redirects_app (g : Instance) (xs ys : list (bool * Status)) :
  redirects g (xs ++ ys) = redirects g xs ++ redirects (fst (observe g xs)) ys.
Proof.
  unfold redirects. rewrite observe_app; cbn.
  now rewrite map_app, concat_app.
Qed.

Lemma observe_deps (g : Instance) (es : list (bool * Status)) (e : bool * Status) :
  deps (fst (observe g (es ++ [e]))) = Some e.
Proof.
  rewrite observe_app; cbn.
  destruct (update (fst (observe g es)) e) as [g1 c] eqn:Hu; cbn.
  change g1 with (fst (g1, c)). rewrite <- Hu. apply update_deps.
Qed.

(** The router calls over a sequence of emissions, from any instance. *)
Lemma redirects_count (es : list (bool * Status)) :
  forall g : Instance,
    redirects g es
    = repeat (replace "/auth/login") (entries (false, succeeded) (deps g) es).
Proof.
  induction es as [| e es IH]; intros g; [reflexivity|].
  rewrite redirects_cons, update_navs, IH, update_deps. cbn [entries].
  destruct (same_deps e (false, succeeded) && deps_changed (deps g) e); reflexivity.
Qed.

(** Renders that repeat the dependencies of the previous one call nothing. *)
Lemma redirects_repeat (n : nat) :
  forall (g : Instance) (e : bool * Status),
    deps g = Some e -> redirects g (repeat e n) = [].
Proof.
  induction n as [| n IH]; intros g e Hg; [reflexivity|].
  cbn [repeat]. rewrite redirects_cons, update_navs.
  apply deps_unchanged in Hg as Hc. rewrite Hc, andb_false_r; cbn.
  apply IH, update_deps.
Qed.

(** C6: over any sequence of store emissions seen by a mounted guard, the
    router calls are exactly one [replace] to the login route per entry
    into [(isAuthenticated = false, status = succeeded)] (in particular
    never a [push]), and rendering the same emission again, any number of
    times, adds no call. *)
Theorem one_replace_per_entry (es : list (bool * Status)) :
  redirects mount es
  = repeat (replace "/auth/login") (entries (false, succeeded) None es)
  /\ (forall (e : bool * Status) (n : nat),
         redirects mount (es ++ e :: repeat e n) = redirects mount (es ++ [e])).
Proof.
  split; [apply (redirects_count es mount)|].
  intros e n.
  change (e :: repeat e n) with ([e] ++ repeat e n).
  rewrite app_assoc, redirects_app, redirects_repeat, app_nil_r;
    [reflexivity | apply observe_deps].
Qed.

(** C7: with status [loading] the guard renders the placeholder and calls
    the router not at all, whatever [isAuthenticated] is now and whatever
    the guard has seen before. *)
Theorem loading_shows_placeholder (g : Instance) (isAuth : bool) :
  render isAuth loading (isChecking g) = CheckingView
  /\ navigations (effect isAuth loading) = []
  /\ views (snd (update g (isAuth, loading))) = [CheckingView]
  /\ navs (snd (update g (isAuth, loading))) = [].
Proof.
  repeat split; unfold update; cbn;
    destruct (deps_changed (deps g) (isAuth, loading)); reflexivity.
Qed.

Lemma update_checked (g : Instance) (e : bool * Status) :
  checked g -> checked (fst (update g e)).
Proof.
  intros Hg a s Hd Hs. pose proof (update_deps g e) as He.
  rewrite Hd in He. injection He as <-.
  unfold update in *. destruct (deps_changed (deps g) (a, s)) eqn:Hc.
  - cbn [fst snd] in *. destruct s; try congruence; cbn;
      destruct (isChecking g); reflexivity.
  - cbn. apply deps_unchanged in Hc. now apply (Hg a s).
Qed.

Lemma observe_checked (es : list (bool * Status)) :
  forall g : Instance, checked g -> checked (fst (observe g es)).
Proof.
  induction es as [| e es IH]; intros g Hg; [exact Hg|].
  cbn. destruct (update g e) as [g1 c] eqn:Hu.
  specialize (IH g1). destruct (observe g1 es) as [g2 cs]; cbn in *.
  apply IH. change g1 with (fst (g1, c)). rewrite <- Hu. now apply update_checked.
Qed.

Lemma mount_checked : checked mount.
Proof. intros a s Hd; discriminate. Qed.

(** C5 does not hold of the code: the store that signed in and then saw a
    registration fail has status [failed] and is still authenticated, and
    for it the guard renders the protected view, on a settled instance and
    on a fresh mount alike. *)
Lemma failed_signed_in_shows_protected :
  status failed_while_signed_in = failed
  /\ isAuthenticated failed_while_signed_in = true
  /\ render (isAuthenticated failed_while_signed_in)
       (status failed_while_signed_in) false = ProtectedView
  /\ map settled
       (snd (observe mount
               [(isAuthenticated failed_while_signed_in,
                 status failed_while_signed_in)]))
     = [ProtectedView]
  /\ ~ (forall (s : AuthState) (checking : bool),
           status s = failed ->
           render (isAuthenticated s) (status s) checking = LoginPromptView).
Proof.
  repeat split.
  intros H. specialize (H failed_while_signed_in false eq_refl). discriminate H.
Qed.

(** C5, amended: for a store with status [failed], whatever the guard has
    seen before, the view it settles on is the login prompt when
    [isAuthenticated] is false and the protected view when it is true. *)
Theorem failed_view_follows_flag (history : list (bool * Status)) (isAuth : bool) :
  settled (snd (update (fst (observe mount history)) (isAuth, failed)))
  = if isAuth then ProtectedView else LoginPromptView.
Proof.
  pose proof (observe_checked history mount mount_checked) as Hg.
  set (g := fst (observe mount history)) in *.
  unfold update. destruct (deps_changed (deps g) (isAuth, failed)) eqn:Hc.
  - cbn. destruct (isChecking g), isAuth; reflexivity.
  - apply deps_unchanged in Hc. cbn.
    rewrite (Hg isAuth failed Hc) by discriminate.
    destruct isAuth; reflexivity.
Qed.

(** * Properties of the session client *)

Lemma run_app (w : World) (xs ys : list Event) :
  run w (xs ++ ys) = run (run w xs) ys.
Proof. unfold run. apply fold_left_app. Qed.

(** Callers that find a request in progress join it: no request is issued,
    the variable keeps referring to the pending one, and each of them waits
    at [return await authCheckPromise]. *)
Lemma join_in_progress (others : list nat) :
  forall (w : World) (p : nat),
    authCheckPromise (client w) = Some p ->
    let w' := run w (map dispatch_checkAuthStatus others) in
    requests (client w') = requests (client w)
    /\ authCheckPromise (client w') = Some p
    /\ awaiting (client w')
       = awaiting (client w) ++ map (fun who => mkAwaiter who await_existing p) others
    /\ observed w' = observed w.
Proof.
  induction others as [| who others IH]; intros w p Hp.
  - cbn. now rewrite app_nil_r.
  - cbn [map]. cbv zeta.
    change (run w (dispatch_checkAuthStatus who
                   :: map dispatch_checkAuthStatus others))
      with (run (step w (dispatch_checkAuthStatus who))
              (map dispatch_checkAuthStatus others)).
    set (w1 := step w (dispatch_checkAuthStatus who)).
    assert (H1 : authCheckPromise (client w1) = Some p)
      by (cbn; unfold checkAuthStatus_call; now rewrite Hp).
    destruct (IH w1 p H1) as (Hr & Hv & Ha & Ho).
    rewrite Hr, Hv, Ha, Ho. subst w1. cbn. unfold checkAuthStatus_call.
    rewrite Hp. cbn. now rewrite <- app_assoc.
Qed.

(** X5: However many callers dispatch the status check while the first one is
    outstanding, one request is issued. *)
Lemma one_request_while_outstanding (first : nat) (others : list nat) :
  requests (client (run initialWorld
                      (map dispatch_checkAuthStatus (first :: others)))) = 1.
Proof.
  change (map dispatch_checkAuthStatus (first :: others))
    with ([dispatch_checkAuthStatus first] ++ map dispatch_checkAuthStatus others).
  rewrite run_app.
  now destruct (join_in_progress others
                  (run initialWorld [dispatch_checkAuthStatus first]) 0 eq_refl)
    as (-> & _).
Qed.

Lemma resume_joined_resolved (p : nat) (r : AxiosResponse MeData) (var : option nat)
  (others : list nat) :
  resume_all p (resolved r) var
    (map (fun who => mkAwaiter who await_existing p) others)
  = (var, [], map (fun who => (who, fulfilled (Response r))) others).
Proof.
  induction others as [| who others IH]; cbn; [reflexivity|].
  now rewrite Nat.eqb_refl, IH.
Qed.

Lemma resume_joined_thrown (p : nat) (e : AxiosError) (others : list nat) :
  resume_all p (thrown e) None
    (map (fun who => mkAwaiter who await_existing p) others)
  = (None, [], map (fun who => (who, rejected (reject_value e))) others).
Proof.
  induction others as [| who others IH]; cbn; [reflexivity|].
  now rewrite Nat.eqb_refl, IH.
Qed.

(** X7: What the callers get when the shared request resolves: the caller that
    started it gets the body of the response, every caller that joined
    gets the response object. *)
Lemma joined_callers_get_response (first : nat) (others : list nat)
  (r : AxiosResponse MeData) :
  observed (run initialWorld
              (map dispatch_checkAuthStatus (first :: others)
               ++ [settle 0 (resolved r)]))
  = (first, fulfilled (Body (data r)))
    :: map (fun who => (who, fulfilled (Response r))) others.
Proof.
  rewrite run_app.
  change (map dispatch_checkAuthStatus (first :: others))
    with ([dispatch_checkAuthStatus first] ++ map dispatch_checkAuthStatus others).
  rewrite run_app.
  set (w1 := run initialWorld [dispatch_checkAuthStatus first]).
  destruct (join_in_progress others w1 0 eq_refl) as (_ & Hv & Ha & Ho).
  set (w2 := run w1 (map dispatch_checkAuthStatus others)) in *.
  change (run w2 [settle 0 (resolved r)]) with (step w2 (settle 0 (resolved r))).
  unfold step, checkAuthStatus_settle. rewrite Ha, Hv. cbn.
  rewrite resume_joined_resolved. cbn. now rewrite Ho.
Qed.

(** X6: When the shared request throws, every caller is rejected with the same
    value. *)
Lemma all_callers_rejected_alike (first : nat) (others : list nat) (e : AxiosError) :
  observed (run initialWorld
              (map dispatch_checkAuthStatus (first :: others)
               ++ [settle 0 (thrown e)]))
  = map (fun who => (who, rejected (reject_value e))) (first :: others).
Proof.
  rewrite run_app.
  change (map dispatch_checkAuthStatus (first :: others))
    with ([dispatch_checkAuthStatus first] ++ map dispatch_checkAuthStatus others).
  rewrite run_app.
  set (w1 := run initialWorld [dispatch_checkAuthStatus first]).
  destruct (join_in_progress others w1 0 eq_refl) as (_ & Hv & Ha & Ho).
  set (w2 := run w1 (map dispatch_checkAuthStatus others)) in *.
  change (run w2 [settle 0 (thrown e)]) with (step w2 (settle 0 (thrown e))).
  unfold step, checkAuthStatus_settle. rewrite Ha, Hv. cbn.
  rewrite resume_joined_thrown. cbn. now rewrite Ho.
Qed.

(** C1, on two status checks dispatched back to back against a live
    session: one request is issued, the caller that started it is
    fulfilled with the body of the response, the caller that joined is
    fulfilled with the response object, and the store, which had recorded
    the session after the first completion, ends up unauthenticated and
    without a user after the second. *)
Theorem joined_check_signs_out :
  let before_settle :=
    run initialWorld [dispatch_checkAuthStatus 1; dispatch_checkAuthStatus 2] in
  let w := step before_settle (settle 0 (resolved me_response)) in
  requests (client w) = 1
  /\ observed w
     = [(1, fulfilled (Body (data me_response)));
        (2, fulfilled (Response me_response))]
  /\ (let after_first :=
        reducer (store before_settle)
          (checkAuthStatus_fulfilled_action (Body (data me_response))) in
      isAuthenticated after_first = true /\ user after_first = Some userA)
  /\ status (store w) = succeeded
  /\ isAuthenticated (store w) = false
  /\ user (store w) = None.
Proof. cbv zeta. repeat split. Qed.

(** * Further properties of the store *)

(** X2: Two clicks on [Toggle Auth] bring [isAuthenticated] back to where it
    was and leave the status and the error alone, but the store holds no
    user afterwards, whatever it held before. *)
Theorem toggle_twice_drops_user (s : AuthState) :
  let s2 := AuthDebugger.toggleAuth (AuthDebugger.toggleAuth s) in
  isAuthenticated s2 = isAuthenticated s
  /\ user s2 = None
  /\ status s2 = status s
  /\ error s2 = error s.
Proof.
  destruct s as [u a st e]. unfold AuthDebugger.toggleAuth.
  destruct a; cbn; repeat split.
Qed.

Lemma js_or_string_nonempty (m : option string) (d : string) :
  d <> EmptyString -> js_or_string m d <> EmptyString.
Proof. intros Hd. destruct m as [[| c t]|]; cbn; congruence. Qed.

(** X3: A rejected login or registration sets the status to [failed] and
    records a message that is never empty, and it leaves [isAuthenticated]
    and [user] as they were: a failed attempt does not end a session. *)
Theorem rejected_attempt_keeps_session (s : AuthState) (m : option string) :
  let l := reducer s (loginUser_rejected_action m) in
  let r := reducer s (registerUser_rejected_action m) in
  (status l = failed /\ status r = failed)
  /\ (exists msg, error l = Some msg /\ msg <> EmptyString)
  /\ (exists msg, error r = Some msg /\ msg <> EmptyString)
  /\ (isAuthenticated l = isAuthenticated s /\ user l = user s)
  /\ (isAuthenticated r = isAuthenticated s /\ user r = user s).
Proof.
  cbn. repeat split.
  - eexists; split; [reflexivity | apply js_or_string_nonempty; discriminate].
  - eexists; split; [reflexivity | apply js_or_string_nonempty; discriminate].
Qed.

(** X4: A logout that runs to completion puts the store back into its initial
    state, from any state and whether the network call resolved or threw. *)
Theorem logout_restores_initial_state (s : AuthState) (o : LogoutSettled)
  (ls : LocalStorage) :
  dispatch_all s
    [logoutUser_pending_action; logoutUser_completion (snd (logoutUser_body o ls))]
  = initialState.
Proof. destruct o; reflexivity. Qed.

(** * Further properties of the session client *)

Lemma resume_joined_keeps_waiters (p : nat) (o : Settled) (others : list nat) :
  resume_all p o None (map (fun who => mkAwaiter who await_existing p) others)
  = (None, [],
     map (fun who => (who, snd (checkAuthStatus_resume await_existing o None)))
       others).
Proof.
  induction others as [| who others IH]; cbn; [reflexivity|].
  rewrite Nat.eqb_refl. destruct o as [r | e]; cbn in *; now rewrite IH.
Qed.

(** The world after the shared request of [first :: others] has settled. *)
Lemma shared_request_settled (first : nat) (others : list nat) (o : Settled) :
  let before := run initialWorld (map dispatch_checkAuthStatus (first :: others)) in
  let w := step before (settle 0 o) in
  let results :=
    (first, snd (checkAuthStatus_resume await_created o (Some 0)))
    :: map (fun who => (who, snd (checkAuthStatus_resume await_existing o None)))
         others in
  client w = {| authCheckPromise := None; requests := 1; awaiting := [] |}
  /\ observed w = results
  /\ store w
     = dispatch_all (store before)
         (map (fun x => checkAuthStatus_completion (snd x)) results).
Proof.
  cbv zeta.
  change (map dispatch_checkAuthStatus (first :: others))
    with ([dispatch_checkAuthStatus first] ++ map dispatch_checkAuthStatus others).
  rewrite run_app.
  set (w1 := run initialWorld [dispatch_checkAuthStatus first]).
  destruct (join_in_progress others w1 0 eq_refl) as (Hr & Hv & Ha & Ho).
  set (w2 := run w1 (map dispatch_checkAuthStatus others)) in *.
  unfold step, checkAuthStatus_settle. rewrite Ha, Hv. cbn.
  assert (Hfirst : fst (checkAuthStatus_resume await_created o (Some 0)) = None)
    by (destruct o; reflexivity).
  destruct (checkAuthStatus_resume await_created o (Some 0)) as [var res] eqn:Hres.
  cbn in Hfirst; subst var.
  rewrite resume_joined_keeps_waiters. cbn. rewrite Hr, Ho. repeat split.
Qed.

(** X8: Once the shared request has settled, resolved or thrown, the variable
    [authCheckPromise] is null again and nobody is left waiting, so the
    next status check issues a second request. *)
Theorem fresh_request_after_settle (first : nat) (others : list nat) (o : Settled)
  (next : nat) :
  let w :=
    run initialWorld
      (map dispatch_checkAuthStatus (first :: others) ++ [settle 0 o]) in
  authCheckPromise (client w) = None
  /\ awaiting (client w) = []
  /\ requests (client (step w (dispatch_checkAuthStatus next))) = 2
  /\ authCheckPromise (client (step w (dispatch_checkAuthStatus next))) = Some 1.
Proof.
  cbv zeta. rewrite run_app.
  change (run ?w [settle 0 o]) with (step w (settle 0 o)).
  pose proof (shared_request_settled first others o) as H.
  cbv zeta in H. destruct H as (Hc & _).
  change (client (step ?w (dispatch_checkAuthStatus next)))
    with (checkAuthStatus_call (client w) next).
  rewrite Hc. repeat split.
Qed.

Lemma check_rejected_overwrites (v : RejectValue) (n : nat) :
  forall s : AuthState,
    let s' :=
      dispatch_all s (repeat (checkAuthStatus_rejected_action (Some v)) (S n)) in
    status s' = failed /\ error s' = message v
    /\ isAuthenticated s' = false /\ user s' = None.
Proof.
  induction n as [| n IH]; intros s; [cbn; repeat split|].
  change (repeat ?a (S (S n))) with (a :: repeat a (S n)).
  apply (IH (reducer s (checkAuthStatus_rejected_action (Some v)))).
Qed.

Lemma check_response_overwrites (r : AxiosResponse MeData) (n : nat) :
  forall s : AuthState,
    let s' :=
      dispatch_all s
        (repeat (checkAuthStatus_fulfilled_action (Response r)) (S n)) in
    status s' = succeeded /\ isAuthenticated s' = false /\ user s' = None.
Proof.
  induction n as [| n IH]; intros s; [cbn; repeat split|].
  change (repeat ?a (S (S n))) with (a :: repeat a (S n)).
  apply (IH (reducer s (checkAuthStatus_fulfilled_action (Response r)))).
Qed.

Lemma map_const_repeat {A B : Type} (b : B) (xs : list A) :
  map (fun _ => b) xs = repeat b (length xs).
Proof. induction xs as [| x xs IH]; cbn; [reflexivity | now rewrite IH]. Qed.

(** X9: When the shared request throws, the store ends with status [failed],
    the message of the rejected value as error, not authenticated and
    without a user, however many callers were waiting. *)
Theorem shared_failure_recorded (first : nat) (others : list nat) (e : AxiosError) :
  let w :=
    run initialWorld
      (map dispatch_checkAuthStatus (first :: others) ++ [settle 0 (thrown e)]) in
  status (store w) = failed
  /\ error (store w) = message (reject_value e)
  /\ isAuthenticated (store w) = false
  /\ user (store w) = None.
Proof.
  cbv zeta. rewrite run_app.
  change (run ?w [settle 0 ?o]) with (step w (settle 0 o)).
  pose proof (shared_request_settled first others (thrown e)) as H.
  cbv zeta in H. destruct H as (_ & _ & ->).
  cbn [map snd checkAuthStatus_resume checkAuthStatus_completion].
  rewrite map_map. cbn [snd checkAuthStatus_completion].
  rewrite (map_const_repeat (checkAuthStatus_rejected_action (Some (reject_value e)))).
  apply (check_rejected_overwrites (reject_value e) (length others)).
Qed.

(** X10: When the shared request resolves and at least one caller had joined,
    the store ends with status [succeeded], not authenticated and without
    a user, whatever the body of the response says. *)
Theorem joined_check_ends_unauthenticated (first second : nat) (others : list nat)
  (r : AxiosResponse MeData) :
  let w :=
    run initialWorld
      (map dispatch_checkAuthStatus (first :: second :: others)
       ++ [settle 0 (resolved r)]) in
  status (store w) = succeeded
  /\ isAuthenticated (store w) = false
  /\ user (store w) = None.
Proof.
  cbv zeta. rewrite run_app.
  change (run ?w [settle 0 ?o]) with (step w (settle 0 o)).
  pose proof (shared_request_settled first (second :: others) (resolved r)) as H.
  cbv zeta in H. destruct H as (_ & _ & ->).
  cbn [map snd checkAuthStatus_resume checkAuthStatus_completion].
  rewrite map_map. cbn [snd checkAuthStatus_completion].
  rewrite (map_const_repeat (checkAuthStatus_fulfilled_action (Response r))).
  change (dispatch_all ?s (?a :: ?b :: ?l))
    with (dispatch_all (reducer s a) (b :: l)).
  apply (check_response_overwrites r (length others)).
Qed.

(** * Properties of the components around the store *)

Lemma removeItem_In (key k : string) (v : string) (ls : LocalStorage) :
  In (k, v) (removeItem key ls) <-> In (k, v) ls /\ k <> key.
Proof.
  unfold removeItem. rewrite filter_In. cbn.
  rewrite negb_true_iff, String.eqb_neq. reflexivity.
Qed.

Lemma removeItem_twice (key : string) (ls : LocalStorage) :
  removeItem key (removeItem key ls) = removeItem key ls.
Proof.
  unfold removeItem. induction ls as [| [k v] ls IH]; cbn; [reflexivity|].
  destruct (String.eqb k key) eqn:Hk; cbn; [exact IH|].
  rewrite Hk; cbn. now rewrite IH.
Qed.

(** X11: The dashboard's logout, whether the network call resolves or throws
    and from any store: the store is back in its initial state, the router
    was pushed to the login page once, the local marker is gone and every
    other entry of the local storage is kept. *)
Theorem handleLogout_clears_everything (o : LogoutSettled) (s : AuthState)
  (ls : LocalStorage) :
  let out := Dashboard.handleLogout o s ls in
  Dashboard.out_store out = initialState
  /\ Dashboard.out_navigations out = [push "/auth/login"]
  /\ (forall v, ~ In ("auth_last_checked", v) (Dashboard.out_storage out))
  /\ (forall k v, k <> "auth_last_checked" ->
        (In (k, v) (Dashboard.out_storage out) <-> In (k, v) ls)).
Proof.
  assert (Hs : Dashboard.out_storage (Dashboard.handleLogout o s ls)
               = removeItem "auth_last_checked" ls)
    by (destruct o; cbn; [apply removeItem_twice | reflexivity]).
  cbv zeta. rewrite Hs. repeat split.
  - destruct o; reflexivity.
  - destruct o; reflexivity.
  - intros v Hin. apply removeItem_In in Hin. now destruct Hin.
  - intros Hin. now apply removeItem_In in Hin.
  - intros Hin. now apply removeItem_In.
Qed.

(** X12: The debugger's logout test never takes its fallback: it reports that
    the call succeeded and leaves the store in its initial state also when
    the network call threw, and in that case the local storage is left
    untouched, marker included. *)
Theorem testLogout_always_reports_success (o : LogoutSettled) (s : AuthState)
  (ls : LocalStorage) :
  let t := AuthDebugger.testLogout o s ls in
  AuthDebugger.fell_back t = false
  /\ AuthDebugger.logoutMessage t = "Logout API call succeeded"
  /\ AuthDebugger.test_store t = initialState
  /\ (forall e, AuthDebugger.test_storage
                  (AuthDebugger.testLogout (logout_thrown e) s ls) = ls).
Proof. destruct o; cbn; repeat split. Qed.

Lemma provider_render_settled (p : AuthProvider.Instance) :
  AuthProvider.deps p = Some (AuthProvider.initialized p) ->
  AuthProvider.render p = (p, 0).
Proof.
  intros Hd. unfold AuthProvider.render. rewrite Hd. cbn.
  now rewrite Bool.eqb_reflx.
Qed.

Lemma provider_run_quiet (es : list AuthProvider.Event) :
  forall p : AuthProvider.Instance,
    AuthProvider.deps p = Some (AuthProvider.initialized p) ->
    (AuthProvider.initialized p = false -> AuthProvider.outstanding p <> 0) ->
    snd (AuthProvider.run p es) = 0
    /\ AuthProvider.initialized (fst (AuthProvider.run p es))
       = AuthProvider.initialized p || existsb AuthProvider.is_settled es.
Proof.
  induction es as [| e es IH]; intros p Hd Ho.
  - cbn. now rewrite orb_false_r.
  - cbn [AuthProvider.run existsb].
    destruct e as [| rej]; cbn [AuthProvider.step AuthProvider.is_settled].
    + rewrite (provider_render_settled p Hd).
      destruct (IH p Hd Ho) as [Hn Hi].
      destruct (AuthProvider.run p es) as [p2 m]; cbn in *. now subst m.
    + rewrite orb_true_r.
      destruct p as [i d [| k]]; cbn in *.
      * destruct i; [|now exfalso; apply Ho].
        destruct (IH {| AuthProvider.initialized := true;
                        AuthProvider.deps := d;
                        AuthProvider.outstanding := 0 |} Hd) as [Hn Hi];
          [cbn; discriminate|].
        destruct (AuthProvider.run _ es) as [p2 m]; cbn in *. now subst m.
      * destruct i.
        -- destruct (IH {| AuthProvider.initialized := true;
                           AuthProvider.deps := d;
                           AuthProvider.outstanding := k |} Hd) as [Hn Hi];
             [cbn; discriminate|].
           destruct (AuthProvider.run _ es) as [p2 m]; cbn in *. now subst m.
        -- subst d. cbn.
           destruct (IH {| AuthProvider.initialized := true;
                           AuthProvider.deps := Some true;
                           AuthProvider.outstanding := k + 0 |} eq_refl)
             as [Hn Hi]; [cbn; discriminate|].
           destruct (AuthProvider.run _ es) as [p2 m]; cbn in *. now subst m.
Qed.

(** X13: Over its whole mounted life, whatever renders and settlements follow,
    the provider dispatches the status check exactly once, and it is
    initialized exactly when a check has settled, rejected or not. *)
Theorem provider_checks_once (es : list AuthProvider.Event) :
  snd (AuthProvider.lifetime es) = 1
  /\ AuthProvider.initialized (fst (AuthProvider.lifetime es))
     = existsb AuthProvider.is_settled es.
Proof.
  unfold AuthProvider.lifetime. cbn.
  destruct (provider_run_quiet es
              {| AuthProvider.initialized := false;
                 AuthProvider.deps := Some false;
                 AuthProvider.outstanding := 1 |} eq_refl) as [Hn Hi];
    [cbn; discriminate|].
  destruct (AuthProvider.run _ es) as [p2 m]; cbn in *. now subst m.
Qed.

(** * Further properties of the route guard *)

(** X14: The guard without the [isChecking] state calls the router exactly as
    the guard does, and renders what a guard that has left its initial
    check renders, except that it shows the login prompt only for status
    [succeeded]: for [idle] and [failed] it shows a second spinner. *)
Theorem simple_guard_agrees (a : bool) (s : Status) :
  SimpleGuard.effect a s = navigations (effect a s)
  /\ SimpleGuard.render a s
     = match render a s false with
       | CheckingView => SimpleGuard.CheckingView
       | ProtectedView => SimpleGuard.ProtectedView
       | LoginPromptView =>
           if Status_eqb s succeeded
           then SimpleGuard.LoginPromptView
           else SimpleGuard.LoadingView
       end.
Proof. destruct a, s; split; reflexivity. Qed.

(** X15: While the store is not authenticated the guard never renders the
    wrapped component, in no status and whatever it has seen before. *)
Theorem unauthenticated_never_protected (g : Instance) (s : Status) :
  existsb (fun v => match v with ProtectedView => true | _ => false end)
    (views (snd (update g (false, s)))) = false.
Proof.
  unfold update. destruct (deps_changed (deps g) (false, s));
    destruct s, (isChecking g); reflexivity.
Qed.

(** X16: A freshly mounted guard renders the placeholder first, whatever the
    store holds; unless the status is [loading] it then renders once more,
    the wrapped component for an authenticated store and the login prompt
    otherwise. *)
Theorem mount_shows_placeholder_first (a : bool) (s : Status) :
  views (snd (update mount (a, s)))
  = if Status_eqb s loading then [CheckingView]
    else [CheckingView; if a then ProtectedView else LoginPromptView].
Proof. destruct a, s; reflexivity. Qed.

Lemma entries_none (es : list (bool * Status)) :
  forall prev : option (bool * Status),
    forallb (fun e => negb (same_deps e (false, succeeded))) es = true ->
    entries (false, succeeded) prev es = 0.
Proof.
  induction es as [| e es IH]; intros prev Hall; [reflexivity|].
  cbn in Hall. apply andb_true_iff in Hall as [He Hes].
  cbn [entries]. apply negb_true_iff in He. rewrite He. cbn.
  now apply IH.
Qed.

Lemma redirects_none (g : Instance) (es : list (bool * Status)) :
  forallb (fun e => negb (same_deps e (false, succeeded))) es = true ->
  redirects g es = [].
Proof.
  intros Hall. rewrite redirects_count, (entries_none es (deps g) Hall).
  reflexivity.
Qed.

(** X17: A guard that never sees the store unauthenticated with status
    [succeeded] never calls the router: an unauthenticated store whose
    status is [idle] or [failed] is shown the login prompt and left where
    it is. *)
Theorem no_redirect_without_succeeded (g : Instance) (es : list (bool * Status)) :
  forallb (fun e => negb (same_deps e (false, succeeded))) es = true ->
  redirects g es = [].
Proof. apply redirects_none. Qed.

(** An instance: a guard mounted on an idle store that sees a status check
    fail and a login succeed. *)
Lemma no_redirect_without_succeeded_witness :
  let es := [(false, idle); (false, loading); (false, failed);
             (false, loading); (true, succeeded)] in
  forallb (fun e => negb (same_deps e (false, succeeded))) es = true
  /\ redirects mount es = [].
Proof.
  cbv zeta. split; [reflexivity|].
  apply no_redirect_without_succeeded. reflexivity.
Defined.

(** X18: A status check, from its pending phase to its fulfilment, makes the
    guard call the router once, a [replace] to the login route, when the
    store ends up unauthenticated and not at all when it ends up
    authenticated; from any store and for a guard in any condition, also
    one that has redirected before. *)
Theorem status_check_redirects_once (g : Instance) (s : AuthState)
  (payload : CheckPayload) :
  let states :=
    Emissions.trace s
      [checkAuthStatus_pending_action; checkAuthStatus_fulfilled_action payload] in
  redirects g (map Emissions.emission states)
  = if js_or_bool (payload_authenticated payload) (js_present (payload_user payload))
    then []
    else [replace "/auth/login"].
Proof.
  cbv zeta. cbn [Emissions.trace map].
  rewrite !redirects_cons, !update_navs, !update_deps.
  unfold Emissions.emission, same_deps. cbn.
  destruct (isAuthenticated s),
    (js_or_bool (payload_authenticated payload) (js_present (payload_user payload)));
    reflexivity.
Qed.

(** X19: Login, registration and logout, fulfilled or rejected, never make the
    guard call the router, from any store and for a guard in any
    condition. *)
Theorem attempts_never_redirect (g : Instance) (s : AuthState) (payload : UserData)
  (m : option string) :
  let seen actions := redirects g (map Emissions.emission (Emissions.trace s actions)) in
  seen [loginUser_pending_action; loginUser_fulfilled_action payload] = []
  /\ seen [loginUser_pending_action; loginUser_rejected_action m] = []
  /\ seen [registerUser_pending_action; registerUser_fulfilled_action payload] = []
  /\ seen [registerUser_pending_action; registerUser_rejected_action m] = []
  /\ seen [logoutUser_pending_action; logoutUser_fulfilled_action] = []
  /\ seen [logoutUser_pending_action; logoutUser_rejected_action] = [].
Proof.
  cbv zeta. cbn [Emissions.trace map].
  repeat split; apply redirects_none;
    unfold Emissions.emission, same_deps; cbn;
    destruct (isAuthenticated s); reflexivity.
Qed.

(** * Properties of the login form *)

Section HookCount.
Context {D : Type}.
Variable same : D -> D -> bool.
Variable effect : D -> list Navigation.
Variable target : D.
Variable call : Navigation.
Hypothesis effect_at_target :
  forall d, effect d = if same d target then [call] else [].

Lemma hook_run_count (renders : list D) :
  forall prev : option D,
    Hook.run same effect prev renders
    = repeat call (Hook.entries same target prev renders).
Proof.
  induction renders as [| d rest IH]; intros prev; [reflexivity|].
  cbn [Hook.run Hook.entries]. rewrite IH, effect_at_target.
  destruct (same d target), (Hook.changed same prev d); reflexivity.
Qed.

End HookCount.

(** The guard's router calls are those of its effect run by the
    dependency rule. *)
Lemma redirects_as_hook (es : list (bool * Status)) :
  forall g : Instance,
    redirects g es
    = Hook.run same_deps (fun e => navigations (effect (fst e) (snd e))) (deps g) es.
Proof.
  induction es as [| e es IH]; intros g; [reflexivity|].
  rewrite redirects_cons, IH, update_deps. cbn [Hook.run]. f_equal.
  rewrite update_navs.
  change (Hook.changed same_deps (deps g) e) with (deps_changed (deps g) e).
  destruct (deps_changed (deps g) e); [|now rewrite andb_false_r].
  rewrite andb_true_r. destruct e as [[|] []]; reflexivity.
Qed.

Lemma LoginForm_effect_at_target (d : LoginForm.Deps) :
  LoginForm.effect d
  = if LoginForm.same_deps d (true, succeeded, true)
    then [push "/dashboard"] else [].
Proof. destruct d as [[[|] []] [|]]; reflexivity. Qed.

(** X20: Over any sequence of renders, the login form pushes the router to the
    dashboard exactly once each time it comes to see an authenticated
    store with status [succeeded] after a login attempt, and makes no
    other router call. *)
Theorem login_form_pushes_once_per_entry (renders : list LoginForm.Deps) :
  LoginForm.navigations renders
  = repeat (push "/dashboard")
      (Hook.entries LoginForm.same_deps (true, succeeded, true) None renders).
Proof.
  unfold LoginForm.navigations.
  apply hook_run_count. exact LoginForm_effect_at_target.
Qed.

Lemma hook_entries_none (renders : list LoginForm.Deps) :
  forall prev : option LoginForm.Deps,
    forallb (fun d => negb (snd d)) renders = true ->
    Hook.entries LoginForm.same_deps (true, succeeded, true) prev renders = 0.
Proof.
  induction renders as [| d rest IH]; intros prev Hall; [reflexivity|].
  cbn in Hall. apply andb_true_iff in Hall as [Hd Hrest].
  cbn [Hook.entries]. rewrite (IH _ Hrest).
  destruct d as [[a s] [|]]; [discriminate|].
  destruct a, s; reflexivity.
Qed.

(** X21: As long as no login was attempted from the form, it makes no router
    call: a visitor who is already signed in stays on the login page. *)
Theorem login_form_stays_without_attempt (renders : list LoginForm.Deps) :
  forallb (fun d => negb (snd d)) renders = true ->
  LoginForm.navigations renders = [].
Proof.
  intros Hall. unfold LoginForm.navigations.
  rewrite (hook_run_count _ _ _ _ LoginForm_effect_at_target).
  now rewrite (hook_entries_none renders None Hall).
Qed.

(** An instance: a signed-in visitor opens the form and a status check
    runs in the background. *)
Lemma login_form_stays_without_attempt_witness :
  let renders := [(true, succeeded, false); (true, loading, false);
                  (true, succeeded, false)] in
  forallb (fun d : LoginForm.Deps => negb (snd d)) renders = true
  /\ LoginForm.navigations renders = [].
Proof.
  cbv zeta. split; [reflexivity|].
  apply login_form_stays_without_attempt. reflexivity.
Defined.

(** * The initial check of the guard *)

Lemma observe_isChecking (es : list (bool * Status)) :
  forall g : Instance,
    checked g ->
    isChecking (fst (observe g es))
    = isChecking g && forallb (fun e => Status_eqb (snd e) loading) es.
Proof.
  induction es as [| e es IH]; intros g Hg; [cbn; now rewrite andb_true_r|].
  cbn [observe forallb].
  pose proof (update_checked g e Hg) as Hg1.
  specialize (IH (fst (update g e)) Hg1).
  destruct (update g e) as [g1 c] eqn:Hu. cbn [fst] in *.
  destruct (observe g1 es) as [g2 cs]. cbn [fst] in *. rewrite IH.
  rewrite andb_assoc. f_equal.
  unfold update in Hu. destruct e as [a s].
  destruct (deps_changed (deps g) (a, s)) eqn:Hc.
  - destruct s; cbn in Hu; destruct (isChecking g) eqn:Hk; cbn in Hu;
      injection Hu as <- _; cbn; try rewrite Hk; reflexivity.
  - injection Hu as <- _. apply deps_unchanged in Hc.
    destruct s; cbn; try (now rewrite andb_true_r);
      rewrite (Hg a _ Hc) by discriminate; reflexivity.
Qed.

(** X22: The [isChecking] state of a mounted guard is true exactly as long as
    every emission it has seen had status [loading]: the first emission
    with another status clears it and nothing sets it again. *)
Theorem isChecking_until_first_result (es : list (bool * Status)) :
  isChecking (fst (observe mount es))
  = forallb (fun e => Status_eqb (snd e) loading) es.
Proof. apply (observe_isChecking es mount mount_checked). Qed.
